(** * iceberg_metrics.h: the C binding of the metrics provider

    The header [cmd/iceberg/include/iceberg_metrics.h] declares seven
    Go-exported entry points and wraps each of them in a [static inline]
    function.  The entry points are implemented in the Go runtime, so a C
    function of the header is modelled as a finite tree of calls to the
    entry points ([prog]); a [runtime] interprets the calls over a state
    and may fault. *)

From stdpp Require Import base option list strings gmap.
From Stdlib Require Import ZArith Lia.

Local Open Scope Z_scope.

(** ** C types of the header *)

(** [uintptr_t] of <stdint.h>: an unsigned machine word, kept as its
    integer value.  The header does no arithmetic on it. *)
Definition uintptr_t : Type := Z.

(** [typedef uintptr_t iceberg_metrics_property_map;] *)
Definition iceberg_metrics_property_map : Type := uintptr_t.

(** [char *] and [const char *]: the address held by the pointer. *)
Definition char_ptr : Type := Z.

Definition NULL : char_ptr := 0.

(** ** Calls that leave the header *)

(** One constructor per [extern] declaration (lines 17-23); the index is
    the C return type. *)
Variant goE : Type -> Type :=
| New_property_map : goE uintptr_t
| Delete_map (handle : uintptr_t) : goE unit
| Add_map_entry (handle : uintptr_t) (key value : char_ptr) : goE unit
| Install_prometheus_metrics_provider (handle : uintptr_t) : goE char_ptr
| Shutdown_metrics_provider : goE char_ptr
| Disable_metrics : goE unit
| Free_c_string (str : char_ptr) : goE unit.

(** [fprintf(stderr, fmt, arg)] of the usage example. *)
Variant stdioE : Type -> Type :=
| Fprintf_stderr (fmt : string) (arg : char_ptr) : stdioE Z.

Variant sumE (E F : Type -> Type) (R : Type) : Type :=
| inlE (e : E R)
| inrE (f : F R).
Arguments inlE {E F R} e.
Arguments inrE {E F R} f.

(** ** Programs over a signature of external calls *)

Inductive prog (E : Type -> Type) (A : Type) : Type :=
| Ret (a : A)
| Call {R : Type} (e : E R) (k : R -> prog E A).
Arguments Ret {E A} a.
Arguments Call {E A R} e k.

Fixpoint bind {E : Type -> Type} {A B : Type}
    (p : prog E A) (f : A -> prog E B) : prog E B :=
  match p with
  | Ret a => f a
  | Call e k => Call e (fun r => bind (k r) f)
  end.

#[global] Instance prog_ret {E} : MRet (prog E) := fun _ a => Ret a.
#[global] Instance prog_bind {E} : MBind (prog E) := fun _ _ f p => bind p f.

(** A single external call whose answer is the result. *)
Definition call {E : Type -> Type} {R : Type} (e : E R) : prog E R :=
  Call e Ret.

(** Re-tagging of the calls of a program. *)
Fixpoint embed {E F : Type -> Type} {A : Type}
    (f : forall R, E R -> F R) (p : prog E A) : prog F A :=
  match p with
  | Ret a => Ret a
  | Call e k => Call (f _ e) (fun r => embed f (k r))
  end.

(** ** Runtimes *)

(** An implementation of the external calls over a state [W]; [None] is a
    fault (the call does not return). *)
Definition runtime (E : Type -> Type) (W : Type) : Type :=
  forall R : Type, E R -> W -> option (R * W).

Fixpoint run {E : Type -> Type} {W A : Type}
    (rt : runtime E W) (p : prog E A) (w : W) : option (A * W) :=
  match p with
  | Ret a => Some (a, w)
  | Call e k =>
      match rt _ e w with
      | Some (r, w') => run rt (k r) w'
      | None => None
      end
  end.

(** A call with its return type hidden, for call logs. *)
Inductive anyE (E : Type -> Type) : Type :=
| Any {R : Type} (e : E R).
Arguments Any {E R} e.

(** The calls issued by [run], in order; a faulting call is the last
    entry. *)
Fixpoint calls {E : Type -> Type} {W A : Type}
    (rt : runtime E W) (p : prog E A) (w : W) : list (anyE E) :=
  match p with
  | Ret a => []
  | Call e k =>
      Any e :: match rt _ e w with
               | Some (r, w') => calls rt (k r) w'
               | None => []
               end
  end.

(** ** The header *)

Module Header.

(** *** Go-exported entry points (lines 17-23) *)

Definition new_property_map : prog goE uintptr_t :=
  call New_property_map.
Definition delete_map (handle : uintptr_t) : prog goE unit :=
  call (Delete_map handle).
Definition add_map_entry (handle : uintptr_t) (key value : char_ptr)
    : prog goE unit :=
  call (Add_map_entry handle key value).
Definition install_prometheus_metrics_provider (handle : uintptr_t)
    : prog goE char_ptr :=
  call (Install_prometheus_metrics_provider handle).
Definition shutdown_metrics_provider : prog goE char_ptr :=
  call Shutdown_metrics_provider.
Definition disable_metrics : prog goE unit :=
  call Disable_metrics.
Definition free_c_string (str : char_ptr) : prog goE unit :=
  call (Free_c_string str).

(** *** Convenience wrappers (lines 28-65) *)

Definition iceberg_metrics_new_property_map
    : prog goE iceberg_metrics_property_map :=
  r ← new_property_map; mret r.

Definition iceberg_metrics_delete_property_map
    (map : iceberg_metrics_property_map) : prog goE unit :=
  delete_map map;; mret tt.

Definition iceberg_metrics_set_property
    (map : iceberg_metrics_property_map) (key value : char_ptr)
    : prog goE unit :=
  add_map_entry map key value;; mret tt.

Definition iceberg_metrics_install_prometheus_provider
    (map : iceberg_metrics_property_map) : prog goE char_ptr :=
  r ← install_prometheus_metrics_provider map; mret r.

Definition iceberg_metrics_shutdown_provider : prog goE char_ptr :=
  r ← shutdown_metrics_provider; mret r.

Definition iceberg_metrics_disable : prog goE unit :=
  disable_metrics;; mret tt.

Definition iceberg_metrics_free_error (err : char_ptr) : prog goE unit :=
  free_c_string err;; mret tt.

End Header.

(** ** The usage example (comment of lines 67-80) *)

Module Usage.
Import Header.

Definition exE : Type -> Type := sumE goE stdioE.

(** A function of the header called from client code. *)
Definition hdr {A : Type} (p : prog goE A) : prog exE A :=
  embed (fun _ e => inlE e) p.

Definition fprintf_stderr (fmt : string) (arg : char_ptr) : prog exE Z :=
  call (inrE (Fprintf_stderr fmt arg)).

(** A runtime of the entry points, extended with an [fprintf] that
    returns 0 and leaves the state alone. *)
Definition with_stdio {W : Type} (rt : runtime goE W) : runtime exE W :=
  fun _ e w =>
    match e with
    | inlE g => rt _ g w
    | inrE f =>
        match f in stdioE T return option (T * W) with
        | Fprintf_stderr _ _ => Some (0, w)
        end
    end.

(** The format string of line 77: its text up to the conversion
    specifier, then the line feed that the C literal ends with (30 bytes
    before the terminating NUL). *)
Definition failure_format : string :=
  "failed to install metrics: %s" +:+ String (Ascii.ascii_of_nat 10) "".

Section Example.

(** Address at which the compiler placed a string literal. *)
Variable lit : string -> char_ptr.

Definition example_usage : prog exE unit :=
  props ← hdr iceberg_metrics_new_property_map;
  hdr (iceberg_metrics_set_property props
         (lit "service.name") (lit "iceberg-worker"));;
  hdr (iceberg_metrics_set_property props
         (lit "service.version") (lit "1.2.3"));;
  hdr (iceberg_metrics_set_property props
         (lit "prometheus.handler_path") (lit "/metrics"));;
  err ← hdr (iceberg_metrics_install_prometheus_provider props);
  hdr (iceberg_metrics_delete_property_map props);;
  if decide (err ≠ NULL) then
    fprintf_stderr failure_format err;;
    hdr (iceberg_metrics_free_error err)
  else mret tt.

End Example.

(** Keys of the [add_map_entry] calls of a log that precede the first
    [install_prometheus_metrics_provider] call. *)
Fixpoint keys_before_install (l : list (anyE exE)) : list char_ptr :=
  match l with
  | [] => []
  | Any (inlE (Add_map_entry _ key _)) :: l' => key :: keys_before_install l'
  | Any (inlE (Install_prometheus_metrics_provider _)) :: _ => []
  | _ :: l' => keys_before_install l'
  end.

(** The configuration keys the spec names. *)
Definition suggested_keys : list string :=
  ["service.name"; "service.version"; "prometheus.handler_path"].

(** A client that sets an arbitrary list of properties, then installs. *)
Fixpoint set_properties (map : iceberg_metrics_property_map)
    (kvs : list (char_ptr * char_ptr)) : prog goE unit :=
  match kvs with
  | [] => mret tt
  | (key, value) :: kvs' =>
      iceberg_metrics_set_property map key value;; set_properties map kvs'
  end.

Definition configure_and_install (map : iceberg_metrics_property_map)
    (kvs : list (char_ptr * char_ptr)) : prog goE char_ptr :=
  set_properties map kvs;; iceberg_metrics_install_prometheus_provider map.

End Usage.

(** ** The declarations of the header as data *)

Module Decl.

Variant ctype : Type :=
| Tvoid | Tuintptr_t | Tchar_ptr | Tconst_char_ptr.

Record fundecl : Type := {
  fd_name : string;
  fd_params : list ctype;
  fd_ret : ctype
}.

(** The [extern] declarations, lines 17-23, in order. *)
Variant entry : Type :=
| E_new_property_map | E_delete_map | E_add_map_entry
| E_install_prometheus_metrics_provider | E_shutdown_metrics_provider
| E_disable_metrics | E_free_c_string.

Definition entries : list entry :=
  [E_new_property_map; E_delete_map; E_add_map_entry;
   E_install_prometheus_metrics_provider; E_shutdown_metrics_provider;
   E_disable_metrics; E_free_c_string].

Definition decl (x : entry) : fundecl :=
  match x with
  | E_new_property_map =>
      {| fd_name := "new_property_map"; fd_params := []; fd_ret := Tuintptr_t |}
  | E_delete_map =>
      {| fd_name := "delete_map"; fd_params := [Tuintptr_t]; fd_ret := Tvoid |}
  | E_add_map_entry =>
      {| fd_name := "add_map_entry";
         fd_params := [Tuintptr_t; Tconst_char_ptr; Tconst_char_ptr];
         fd_ret := Tvoid |}
  | E_install_prometheus_metrics_provider =>
      {| fd_name := "install_prometheus_metrics_provider";
         fd_params := [Tuintptr_t]; fd_ret := Tchar_ptr |}
  | E_shutdown_metrics_provider =>
      {| fd_name := "shutdown_metrics_provider"; fd_params := [];
         fd_ret := Tchar_ptr |}
  | E_disable_metrics =>
      {| fd_name := "disable_metrics"; fd_params := []; fd_ret := Tvoid |}
  | E_free_c_string =>
      {| fd_name := "free_c_string"; fd_params := [Tchar_ptr]; fd_ret := Tvoid |}
  end.

Definition extern_decls : list fundecl := decl <$> entries.

(** Values of a C type. *)
Definition sem (t : ctype) : Type :=
  match t with
  | Tvoid => unit
  | Tuintptr_t => uintptr_t
  | Tchar_ptr => char_ptr
  | Tconst_char_ptr => char_ptr
  end.

(** Argument tuples of a parameter list. *)
Fixpoint args (ts : list ctype) : Type :=
  match ts with
  | [] => unit
  | t :: ts' => (sem t * args ts')%type
  end.

(** The call of an entry point at arguments of its declared types. *)
Definition invoke (x : entry)
    : args (fd_params (decl x)) -> goE (sem (fd_ret (decl x))) :=
  match x with
  | E_new_property_map => fun _ => New_property_map
  | E_delete_map => fun a => Delete_map a.1
  | E_add_map_entry => fun a => Add_map_entry a.1 a.2.1 a.2.2.1
  | E_install_prometheus_metrics_provider =>
      fun a => Install_prometheus_metrics_provider a.1
  | E_shutdown_metrics_provider => fun _ => Shutdown_metrics_provider
  | E_disable_metrics => fun _ => Disable_metrics
  | E_free_c_string => fun a => Free_c_string a.1
  end.

(** The vocabulary of the ABI list of the spec. *)
Variant kind : Type :=
| Handle | Str | Error_string_or_null | Nothing.

(** The ABI as the spec documents it: name, parameters, result. *)
Definition documented_abi : list (string * list kind * kind) :=
  [("new_property_map", [], Handle);
   ("delete_map", [Handle], Nothing);
   ("add_map_entry", [Handle; Str; Str], Nothing);
   ("install_prometheus_metrics_provider", [Handle], Error_string_or_null);
   ("shutdown_metrics_provider", [], Error_string_or_null);
   ("disable_metrics", [], Nothing);
   ("free_c_string", [Str], Nothing)].

Definition param_kind (t : ctype) : kind :=
  match t with
  | Tvoid => Nothing
  | Tuintptr_t => Handle
  | Tchar_ptr => Str
  | Tconst_char_ptr => Str
  end.

Definition ret_kind (t : ctype) : kind :=
  match t with
  | Tvoid => Nothing
  | Tuintptr_t => Handle
  | Tchar_ptr => Error_string_or_null
  | Tconst_char_ptr => Str
  end.

Definition abi_of (d : fundecl) : string * list kind * kind :=
  (fd_name d, param_kind <$> fd_params d, ret_kind (fd_ret d)).

End Decl.

(** ** Pass-through, as the spec words it *)

Module PassThrough.

(** "Each function is a direct pass-through with no validation, branching,
    or computation": one call of the entry point with the arguments as
    received, whose answer is returned as it is. *)
Definition pass_through {R : Type} (e : goE R) : prog goE R := Call e Ret.

Definition spec_new_property_map : prog goE uintptr_t :=
  pass_through New_property_map.
Definition spec_delete_property_map (map : uintptr_t) : prog goE unit :=
  pass_through (Delete_map map).
Definition spec_set_property (map : uintptr_t) (key value : char_ptr)
    : prog goE unit :=
  pass_through (Add_map_entry map key value).
Definition spec_install_prometheus_provider (map : uintptr_t)
    : prog goE char_ptr :=
  pass_through (Install_prometheus_metrics_provider map).
Definition spec_shutdown_provider : prog goE char_ptr :=
  pass_through Shutdown_metrics_provider.
Definition spec_disable : prog goE unit :=
  pass_through Disable_metrics.
Definition spec_free_error (err : char_ptr) : prog goE unit :=
  pass_through (Free_c_string err).

(** [p] is one call of [e] that returns the answer it gets. *)
Definition single_call {R : Type} (p : prog goE R) (e : goE R) : Prop :=
  ∃ k, p = Call e k ∧ ∀ r, k r = Ret r.

(** [p] behaves as [spec] on every runtime and state: same result and
    state, or same fault, and the same calls. *)
Definition same_behaviour {R : Type} (p spec : prog goE R) : Prop :=
  ∀ (W : Type) (rt : runtime goE W) (w : W),
    run rt p w = run rt spec w ∧ calls rt p w = calls rt spec w.

(** [p] returns exactly what the entry point [e] returns, and calls
    nothing else. *)
Definition forwards_to {R : Type} (p : prog goE R) (e : goE R) : Prop :=
  ∀ (W : Type) (rt : runtime goE W) (w : W),
    run rt p w = rt _ e w ∧ calls rt p w = [Any e].

End PassThrough.

(** ** Two small runtimes that differ on [free_c_string(NULL)] *)

Module Stub.

Definition answer {R : Type} (e : goE R) : R :=
  match e in goE T return T with
  | New_property_map => 1
  | Delete_map _ => tt
  | Add_map_entry _ _ _ => tt
  | Install_prometheus_metrics_provider _ => NULL
  | Shutdown_metrics_provider => NULL
  | Disable_metrics => tt
  | Free_c_string _ => tt
  end.

(** Every call returns. *)
Definition lenient : runtime goE unit :=
  fun _ e w => Some (answer e, w).

(** As [lenient], but freeing the null pointer faults. *)
Definition null_rejecting : runtime goE unit :=
  fun _ e w =>
    match e with
    | Free_c_string str =>
        if decide (str = NULL) then None else Some (answer e, w)
    | _ => Some (answer e, w)
    end.

End Stub.

(** ** The Go side *)

Module GoModel.

Section Model.

(** The state of the process-wide provider slot; the spec leaves its
    structure open. *)
Context {P : Type}.

(** What installing, shutting down and disabling do to the slot.
    Installing is given the properties that the handle identifies, or
    [None] when it identifies no map.  In the result [None] is success,
    [Some msg] a failure with its message. *)
Variable install_op : option (gmap string string) -> P -> option string * P.
Variable shutdown_op : P -> option string * P.
Variable disable_op : P -> P.

(** Whether [free_c_string(NULL)] faults; the spec does not say. *)
Variable free_null_faults : bool.

Record world : Type := World {
  maps : gmap Z (gmap string string);
  provider : P;
  cmem : gmap Z string;
  owned : gset Z
}.

(** Modelled from the spec: the implementation of [new_property_map],
    which is Go code outside the header.  The map is "created by an
    allocation call" and "identified by a numeric handle": a handle not in
    use is bound to an empty map. *)
Definition go_new_property_map (w : world) : option (uintptr_t * world) :=
  let h := fresh (dom (maps w)) in
  Some (h, World (<[h := ∅]> (maps w)) (provider w) (cmem w) (owned w)).

(** Modelled from the spec: the implementation of [delete_map], which is
    Go code outside the header.  The map is "explicitly destroyed by a
    delete call"; a handle that identifies no map is a fault. *)
Definition go_delete_map (handle : uintptr_t) (w : world)
    : option (unit * world) :=
  match maps w !! handle with
  | Some _ =>
      Some (tt, World (delete handle (maps w)) (provider w) (cmem w) (owned w))
  | None => None
  end.

(** Modelled from the spec: the implementation of [add_map_entry], which
    is Go code outside the header.  The map is "populated by repeated
    key/value insertions" of strings; a handle that identifies no map, or
    a pointer at which no string can be read, is a fault. *)
Definition go_add_map_entry (handle : uintptr_t) (key value : char_ptr)
    (w : world) : option (unit * world) :=
  match maps w !! handle, cmem w !! key, cmem w !! value with
  | Some m, Some k, Some v =>
      Some (tt, World (<[handle := <[k := v]> m]> (maps w))
                      (provider w) (cmem w) (owned w))
  | _, _, _ => None
  end.

(** Modelled from the spec: how a string-returning entry point reports an
    outcome.  "null on success and a heap-allocated, caller-freed error
    message on failure": the message is stored in a block that was not in
    use, and the block is handed to the caller. *)
Definition report (res : option string) (p : P) (w : world)
    : char_ptr * world :=
  match res with
  | None => (NULL, World (maps w) p (cmem w) (owned w))
  | Some msg =>
      let a := fresh ({[NULL]} ∪ dom (cmem w)) in
      (a, World (maps w) p (<[a := msg]> (cmem w)) ({[a]} ∪ owned w))
  end.

(** Modelled from the spec: the implementation of
    [install_prometheus_metrics_provider], which is Go code outside the
    header.  The map is "consumed (read-only) by the provider-install
    call", and the call returns "either null or a valid pointer": it
    looks the handle up and reports the outcome through the pointer,
    whichever handle it is given. *)
Definition go_install_prometheus_metrics_provider (handle : uintptr_t)
    (w : world) : option (char_ptr * world) :=
  let '(res, p) := install_op (maps w !! handle) (provider w) in
  Some (report res p w).

(** Modelled from the spec: the implementation of
    [shutdown_metrics_provider], which is Go code outside the header. *)
Definition go_shutdown_metrics_provider (w : world)
    : option (char_ptr * world) :=
  let '(res, p) := shutdown_op (provider w) in Some (report res p w).

(** Modelled from the spec: the implementation of [disable_metrics], which
    is Go code outside the header; it acts on the provider slot only. *)
Definition go_disable_metrics (w : world) : option (unit * world) :=
  Some (tt, World (maps w) (disable_op (provider w)) (cmem w) (owned w)).

(** Modelled from the spec: the implementation of [free_c_string], which
    is Go code outside the header.  "The dedicated free function must be
    used to release" an error message: a block handed to the caller is
    released; any other non-null pointer is a fault. *)
Definition go_free_c_string (str : char_ptr) (w : world)
    : option (unit * world) :=
  if decide (str ∈ owned w) then
    Some (tt, World (maps w) (provider w)
                    (delete str (cmem w)) (owned w ∖ {[str]}))
  else if decide (str = NULL) then
    if free_null_faults then None else Some (tt, w)
  else None.

(** Modelled from the spec: the Go runtime behind the seven entry points,
    which is Go code outside the header. *)
Definition go_runtime : runtime goE world :=
  fun _ e w =>
    match e with
    | New_property_map => go_new_property_map w
    | Delete_map handle => go_delete_map handle w
    | Add_map_entry handle key value => go_add_map_entry handle key value w
    | Install_prometheus_metrics_provider handle =>
        go_install_prometheus_metrics_provider handle w
    | Shutdown_metrics_provider => go_shutdown_metrics_provider w
    | Disable_metrics => go_disable_metrics w
    | Free_c_string str => go_free_c_string str w
    end.

(** [r], returned in state [w'] by a call made in state [w], reports the
    outcome [res] by the convention of the spec: null exactly on success;
    on failure a non-null block that was not in use, now holds the
    message and belongs to the caller. *)
Definition reports (res : option string) (r : char_ptr) (w w' : world)
    : Prop :=
  (r = NULL ↔ res = None) ∧
  (∀ msg, res = Some msg →
     r ≠ NULL ∧ cmem w !! r = None ∧
     cmem w' !! r = Some msg ∧ r ∈ owned w').

End Model.

Arguments world P : clear implicits.

(** Creating a property map and destroying it, [n] times over. *)
Fixpoint create_delete (n : nat) : prog goE unit :=
  match n with
  | O => mret tt
  | S n' =>
      h ← Header.iceberg_metrics_new_property_map;
      Header.iceberg_metrics_delete_property_map h;;
      create_delete n'
  end.

(** The same through the entry points themselves. *)
Fixpoint create_delete_raw (n : nat) : prog goE unit :=
  match n with
  | O => mret tt
  | S n' =>
      h ← Header.new_property_map;
      Header.delete_map h;;
      create_delete_raw n'
  end.

(** An instance of the parameters of the model, for evaluating it on
    concrete states; the conditions are illustrative.  The slot records
    whether a provider is active; installing needs a handle that
    identifies a map, a "service.name" property in it and an empty slot,
    shutting down needs an active provider. *)
Definition demo_install (m : option (gmap string string)) (p : bool)
    : option string * bool :=
  if p then (Some "provider already installed", p)
  else match m with
       | None => (Some "unknown property map", p)
       | Some props =>
           match props !! "service.name" with
           | Some _ => (None, true)
           | None => (Some "service.name is required", p)
           end
       end.

Definition demo_shutdown (p : bool) : option string * bool :=
  if p then (None, false) else (Some "no active provider", p).

Definition demo_disable (p : bool) : bool := false.

Definition demo_runtime : runtime goE (world bool) :=
  go_runtime demo_install demo_shutdown demo_disable false.

Definition demo_world : world bool :=
  @World bool {[ 7 := ∅ ]} false ∅ ∅.

(** [demo_world] after an install on handle 7 that failed for want of a
    "service.name": the message sits in the caller's block at address 1. *)
Definition demo_failed : world bool :=
  @World bool {[ 7 := ∅ ]} false {[ 1 := "service.name is required" ]} {[ 1 ]}.

End GoModel.

(** ** Clients of the header *)

Module Clients.
Import Header Usage.

(** The wrapper of lines 28-65 that stands for an entry point. *)
Definition wrapper_of {R : Type} (e : goE R) : prog goE R :=
  match e in goE T return prog goE T with
  | New_property_map => iceberg_metrics_new_property_map
  | Delete_map handle => iceberg_metrics_delete_property_map handle
  | Add_map_entry handle key value =>
      iceberg_metrics_set_property handle key value
  | Install_prometheus_metrics_provider handle =>
      iceberg_metrics_install_prometheus_provider handle
  | Shutdown_metrics_provider => iceberg_metrics_shutdown_provider
  | Disable_metrics => iceberg_metrics_disable
  | Free_c_string str => iceberg_metrics_free_error str
  end.

(** A client written against the entry points, rewritten to go through
    the wrappers: every call becomes the body of its wrapper. *)
Fixpoint via_wrappers {A : Type} (p : prog goE A) : prog goE A :=
  match p with
  | Ret a => Ret a
  | Call e k => wrapper_of e ≫= (fun r => via_wrappers (k r))
  end.

(** A call that returned, with its answer. *)
Inductive answered (E : Type -> Type) : Type :=
| Answered {R : Type} (e : E R) (r : R).
Arguments Answered {E R} e r.

(** The calls of [run] that returned, in order, each with its answer. *)
Fixpoint answers {E : Type -> Type} {W A : Type}
    (rt : runtime E W) (p : prog E A) (w : W) : list (answered E) :=
  match p with
  | Ret a => []
  | Call e k =>
      match rt _ e w with
      | Some (r, w') => Answered e r :: answers rt (k r) w'
      | None => []
      end
  end.

(** The handle a [new_property_map] call returned. *)
Definition created (a : answered exE) : option uintptr_t :=
  match a with
  | Answered e r =>
      match e with
      | inlE g =>
          match g in goE T return T -> option uintptr_t with
          | New_property_map => fun h => Some h
          | _ => fun _ => None
          end
      | inrE _ => fun _ => None
      end r
  end.

(** The handle and the pointer of an install call that returned. *)
Definition installed (a : answered exE) : option (uintptr_t * char_ptr) :=
  match a with
  | Answered e r =>
      match e with
      | inlE g =>
          match g in goE T return T -> option (uintptr_t * char_ptr) with
          | Install_prometheus_metrics_provider handle =>
              fun err => Some (handle, err)
          | _ => fun _ => None
          end
      | inrE _ => fun _ => None
      end r
  end.

(** The handle argument of a call that takes one. *)
Definition handle_of (c : anyE exE) : option uintptr_t :=
  match c with
  | Any (inlE (Delete_map handle)) => Some handle
  | Any (inlE (Add_map_entry handle _ _)) => Some handle
  | Any (inlE (Install_prometheus_metrics_provider handle)) => Some handle
  | _ => None
  end.

(** The handle a [delete_map] call destroys. *)
Definition deleted (c : anyE exE) : option uintptr_t :=
  match c with
  | Any (inlE (Delete_map handle)) => Some handle
  | _ => None
  end.

(** No call after a [delete_map] call takes a handle. *)
Fixpoint no_use_after_delete (l : list (anyE exE)) : bool :=
  match l with
  | [] => true
  | c :: l' =>
      match deleted c with
      | Some _ => forallb (fun c' => bool_decide (handle_of c' = None)) l'
      | None => no_use_after_delete l'
      end
  end.

(** What a call does with an error string: print it or release it. *)
Variant err_use : Type :=
| Printed (fmt : string) (err : char_ptr)
| Released (err : char_ptr).

Definition err_use_of (c : anyE exE) : option err_use :=
  match c with
  | Any (inrE (Fprintf_stderr fmt err)) => Some (Printed fmt err)
  | Any (inlE (Free_c_string err)) => Some (Released err)
  | _ => None
  end.

(** The call is [free_c_string(NULL)]. *)
Definition frees_null {R : Type} (e : exE R) : bool :=
  match e with
  | inlE (Free_c_string str) => bool_decide (str = NULL)
  | _ => false
  end.

(** The calls of a run of the usage example that completes, given the
    handle [props] that [new_property_map] returned and the pointer [err]
    that install returned. *)
Definition example_calls (lit : string -> char_ptr)
    (props : uintptr_t) (err : char_ptr) : list (anyE exE) :=
  [Any (inlE New_property_map);
   Any (inlE (Add_map_entry props
                (lit "service.name") (lit "iceberg-worker")));
   Any (inlE (Add_map_entry props (lit "service.version") (lit "1.2.3")));
   Any (inlE (Add_map_entry props
                (lit "prometheus.handler_path") (lit "/metrics")));
   Any (inlE (Install_prometheus_metrics_provider props));
   Any (inlE (Delete_map props))]
  ++ (if decide (err ≠ NULL)
      then [Any (inrE (Fprintf_stderr failure_format err));
            Any (inlE (Free_c_string err))]
      else []).

(** A stub on which install fails: as [Stub.lenient], but install returns
    the non-null pointer 64. *)
Definition failing_install : runtime goE unit :=
  fun _ e w =>
    match e in goE T return option (T * unit) with
    | Install_prometheus_metrics_provider _ => Some (64, w)
    | e' => Some (Stub.answer e', w)
    end.

End Clients.

(** ** The wrapper definitions as data *)

Module WrapperDecl.
Import Decl.

(** A type as a wrapper spells it: a type of the entry points, or the
    typedef of line 14. *)
Variant wtype : Type :=
| Plain (t : ctype)
| Tproperty_map.

(** [typedef uintptr_t iceberg_metrics_property_map;] *)
Definition resolve (t : wtype) : ctype :=
  match t with
  | Plain t' => t'
  | Tproperty_map => Tuintptr_t
  end.

Record wrapperdef : Type := {
  wd_name : string;
  wd_params : list wtype;
  wd_ret : wtype;
  wd_calls : entry
}.

(** The [static inline] definitions, lines 28-65: name, parameters,
    result, and the entry point the body calls. *)
Definition wrapper_defs : list wrapperdef :=
  [{| wd_name := "iceberg_metrics_new_property_map"; wd_params := [];
      wd_ret := Tproperty_map; wd_calls := E_new_property_map |};
   {| wd_name := "iceberg_metrics_delete_property_map";
      wd_params := [Tproperty_map]; wd_ret := Plain Tvoid;
      wd_calls := E_delete_map |};
   {| wd_name := "iceberg_metrics_set_property";
      wd_params := [Tproperty_map; Plain Tconst_char_ptr;
                    Plain Tconst_char_ptr];
      wd_ret := Plain Tvoid; wd_calls := E_add_map_entry |};
   {| wd_name := "iceberg_metrics_install_prometheus_provider";
      wd_params := [Tproperty_map]; wd_ret := Plain Tchar_ptr;
      wd_calls := E_install_prometheus_metrics_provider |};
   {| wd_name := "iceberg_metrics_shutdown_provider"; wd_params := [];
      wd_ret := Plain Tchar_ptr; wd_calls := E_shutdown_metrics_provider |};
   {| wd_name := "iceberg_metrics_disable"; wd_params := [];
      wd_ret := Plain Tvoid; wd_calls := E_disable_metrics |};
   {| wd_name := "iceberg_metrics_free_error"; wd_params := [Plain Tchar_ptr];
      wd_ret := Plain Tvoid; wd_calls := E_free_c_string |}].

End WrapperDecl.

(** * Facts *)

(** ** Running programs *)

Section RunFacts.

Context {E : Type -> Type} {W : Type} (rt : runtime E W).

Lemma run_call {R : Type} (e : E R) (w : W) : run rt (call e) w = rt _ e w.
Proof.
  unfold call. simpl. destruct (rt R e w) as [[r w']|]; reflexivity.
Qed.

Lemma run_bind {A B : Type} (p : prog E A) (f : A -> prog E B) (w : W) :
  run rt (p ≫= f) w =
  match run rt p w with
  | Some (a, w') => run rt (f a) w'
  | None => None
  end.
Proof.
  unfold mbind, prog_bind.
  revert w. induction p as [a | R e k IH]; intros w; simpl.
  - reflexivity.
  - destruct (rt R e w) as [[r w']|]; [apply IH | reflexivity].
Qed.

Lemma calls_bind {A B : Type} (p : prog E A) (f : A -> prog E B) (w : W) :
  calls rt (p ≫= f) w =
  calls rt p w ++
  match run rt p w with
  | Some (a, w') => calls rt (f a) w'
  | None => []
  end.
Proof.
  unfold mbind, prog_bind.
  revert w. induction p as [a | R e k IH]; intros w; simpl.
  - reflexivity.
  - f_equal. destruct (rt R e w) as [[r w']|]; [apply IH | reflexivity].
Qed.

End RunFacts.

(** ** Each wrapper is one call *)

Section Forwarding.
Import Header PassThrough.

Lemma single_call_forwards {R : Type} (p : prog goE R) (e : goE R) :
  single_call p e → forwards_to p e.
Proof.
  intros (k & -> & Hk) W rt w. simpl.
  destruct (rt R e w) as [[r w']|]; [| done].
  rewrite (Hk r). done.
Qed.

Lemma single_call_same {R : Type} (p : prog goE R) (e : goE R) :
  single_call p e → same_behaviour p (pass_through e).
Proof.
  intros (k & -> & Hk) W rt w. simpl.
  destruct (rt R e w) as [[r w']|]; [| done].
  rewrite (Hk r). done.
Qed.

Lemma new_property_map_single :
  single_call iceberg_metrics_new_property_map New_property_map.
Proof. eexists. split; [reflexivity | done]. Qed.

Lemma delete_property_map_single map :
  single_call (iceberg_metrics_delete_property_map map) (Delete_map map).
Proof. eexists. split; [reflexivity | by intros []]. Qed.

Lemma set_property_single map key value :
  single_call (iceberg_metrics_set_property map key value)
              (Add_map_entry map key value).
Proof. eexists. split; [reflexivity | by intros []]. Qed.

Lemma install_prometheus_provider_single map :
  single_call (iceberg_metrics_install_prometheus_provider map)
              (Install_prometheus_metrics_provider map).
Proof. eexists. split; [reflexivity | done]. Qed.

Lemma shutdown_provider_single :
  single_call iceberg_metrics_shutdown_provider Shutdown_metrics_provider.
Proof. eexists. split; [reflexivity | done]. Qed.

Lemma disable_single : single_call iceberg_metrics_disable Disable_metrics.
Proof. eexists. split; [reflexivity | by intros []]. Qed.

Lemma free_error_single err :
  single_call (iceberg_metrics_free_error err) (Free_c_string err).
Proof. eexists. split; [reflexivity | by intros []]. Qed.

(** The calls of a wrapper followed by more code. *)
Lemma calls_seq_single {R A : Type} {W : Type} (rt : runtime goE W)
    (p : prog goE R) (e : goE R) (q : prog goE A) (w : W) :
  single_call p e →
  calls rt (p;; q) w =
  Any e :: match rt _ e w with
           | Some (_, w') => calls rt q w'
           | None => []
           end.
Proof.
  intros Hp. rewrite calls_bind.
  destruct (single_call_forwards p e Hp W rt w) as [-> ->].
  reflexivity.
Qed.

(** C1.  Each of the seven wrappers returns exactly what the entry point it
    names returns at the same arguments, on every runtime and from every
    state, and issues that one call only; it behaves as the pass-through
    the spec describes. *)
Theorem wrappers_are_pass_through :
  (forwards_to iceberg_metrics_new_property_map New_property_map ∧
   same_behaviour iceberg_metrics_new_property_map spec_new_property_map) ∧
  (∀ map,
     forwards_to (iceberg_metrics_delete_property_map map) (Delete_map map) ∧
     same_behaviour (iceberg_metrics_delete_property_map map)
                    (spec_delete_property_map map)) ∧
  (∀ map key value,
     forwards_to (iceberg_metrics_set_property map key value)
                 (Add_map_entry map key value) ∧
     same_behaviour (iceberg_metrics_set_property map key value)
                    (spec_set_property map key value)) ∧
  (∀ map,
     forwards_to (iceberg_metrics_install_prometheus_provider map)
                 (Install_prometheus_metrics_provider map) ∧
     same_behaviour (iceberg_metrics_install_prometheus_provider map)
                    (spec_install_prometheus_provider map)) ∧
  (forwards_to iceberg_metrics_shutdown_provider Shutdown_metrics_provider ∧
   same_behaviour iceberg_metrics_shutdown_provider spec_shutdown_provider) ∧
  (forwards_to iceberg_metrics_disable Disable_metrics ∧
   same_behaviour iceberg_metrics_disable spec_disable) ∧
  (∀ err,
     forwards_to (iceberg_metrics_free_error err) (Free_c_string err) ∧
     same_behaviour (iceberg_metrics_free_error err) (spec_free_error err)).
Proof.
  repeat split; intros;
    first [ apply single_call_forwards | apply single_call_same ];
    auto using new_property_map_single, delete_property_map_single,
      set_property_single, install_prometheus_provider_single,
      shutdown_provider_single, disable_single, free_error_single.
Qed.

End Forwarding.

(** ** Arguments are not inspected *)

Section NoValidation.
Import Header PassThrough.

(** C8.  [iceberg_metrics_free_error(p)] is the call [free_c_string(p)]
    for every pointer [p], the null pointer included: the wrapper returns
    or faults exactly as the runtime's [free_c_string] does, and there are
    runtimes on which freeing null is fine and runtimes on which it
    faults. *)
Theorem free_error_forwards_null :
  (∀ err, forwards_to (iceberg_metrics_free_error err) (Free_c_string err)) ∧
  (∀ (W : Type) (rt : runtime goE W) (w : W),
     run rt (iceberg_metrics_free_error NULL) w = rt _ (Free_c_string NULL) w ∧
     calls rt (iceberg_metrics_free_error NULL) w
       = [Any (Free_c_string NULL)] ∧
     (is_Some (run rt (iceberg_metrics_free_error NULL) w) ↔
      is_Some (rt _ (Free_c_string NULL) w))) ∧
  run Stub.lenient (iceberg_metrics_free_error NULL) tt = Some (tt, tt) ∧
  run Stub.null_rejecting (iceberg_metrics_free_error NULL) tt = None.
Proof.
  assert (Hfwd : ∀ err,
    forwards_to (iceberg_metrics_free_error err) (Free_c_string err))
    by (intros err; apply single_call_forwards, free_error_single).
  split; [exact Hfwd |]. split; [| by split].
  intros W rt w. destruct (Hfwd NULL W rt w) as [Hrun Hlog].
  rewrite Hrun. done.
Qed.

(** C9.  [iceberg_metrics_set_property], [iceberg_metrics_delete_property_map]
    and [iceberg_metrics_install_prometheus_provider] hand every handle and
    every pointer to the entry point as received: null pointers, the zero
    handle, and a handle that was just deleted are forwarded like any
    other value. *)
Theorem wrappers_check_no_argument :
  (∀ map key value,
     forwards_to (iceberg_metrics_set_property map key value)
                 (Add_map_entry map key value)) ∧
  (∀ map,
     forwards_to (iceberg_metrics_delete_property_map map) (Delete_map map)) ∧
  (∀ map,
     forwards_to (iceberg_metrics_install_prometheus_provider map)
                 (Install_prometheus_metrics_provider map)) ∧
  forwards_to (iceberg_metrics_set_property 0 NULL NULL)
              (Add_map_entry 0 NULL NULL) ∧
  (∀ (W : Type) (rt : runtime goE W) (w : W) map key value,
     calls rt (iceberg_metrics_delete_property_map map;;
               iceberg_metrics_set_property map key value) w =
     Any (Delete_map map) ::
       match rt _ (Delete_map map) w with
       | Some _ => [Any (Add_map_entry map key value)]
       | None => []
       end).
Proof.
  split; [| split; [| split; [| split]]].
  - intros. apply single_call_forwards, set_property_single.
  - intros. apply single_call_forwards, delete_property_map_single.
  - intros. apply single_call_forwards, install_prometheus_provider_single.
  - apply single_call_forwards, set_property_single.
  - intros W rt w map key value.
    rewrite (calls_seq_single rt _ _ _ w (delete_property_map_single map)).
    destruct (rt _ (Delete_map map) w) as [[[] w']|]; [| done].
    f_equal.
    apply (single_call_forwards _ _ (set_property_single map key value)).
Qed.

(** C10.  [iceberg_metrics_property_map] is [uintptr_t]: every value of
    that type, 0 included, is accepted wherever a handle is expected,
    handles compare as integers, and a handle value passed to
    [iceberg_metrics_delete_property_map] is forwarded again afterwards
    like any other; what a wrapper calls does not depend on the state. *)
Theorem handle_is_uintptr :
  iceberg_metrics_property_map = uintptr_t ∧
  (∀ v : uintptr_t,
     forwards_to (iceberg_metrics_delete_property_map v) (Delete_map v) ∧
     forwards_to (iceberg_metrics_install_prometheus_provider v)
                 (Install_prometheus_metrics_provider v)) ∧
  forwards_to (iceberg_metrics_delete_property_map 0) (Delete_map 0) ∧
  (∀ h1 h2 : iceberg_metrics_property_map,
     bool_decide (h1 = h2) = (h1 =? h2)) ∧
  (∀ (W : Type) (rt : runtime goE W) (w : W)
     (map : iceberg_metrics_property_map),
     let copy := map in
     calls rt (iceberg_metrics_delete_property_map map;;
               iceberg_metrics_delete_property_map copy) w =
     Any (Delete_map map) ::
       match rt _ (Delete_map map) w with
       | Some _ => [Any (Delete_map copy)]
       | None => []
       end) ∧
  (∀ (W : Type) (rt : runtime goE W) (w1 w2 : W)
     (map : iceberg_metrics_property_map),
     calls rt (iceberg_metrics_delete_property_map map) w1 =
     calls rt (iceberg_metrics_delete_property_map map) w2).
Proof.
  assert (Hdel : ∀ v,
    forwards_to (iceberg_metrics_delete_property_map v) (Delete_map v))
    by (intros v; apply single_call_forwards, delete_property_map_single).
  split; [reflexivity |]. split; [| split; [| split; [| split]]].
  - intros v. split; [apply Hdel |].
    apply single_call_forwards, install_prometheus_provider_single.
  - apply Hdel.
  - intros h1 h2. destruct (Z.eqb_spec h1 h2) as [-> | Hne].
    + by apply bool_decide_eq_true.
    + by apply bool_decide_eq_false.
  - intros W rt w map copy.
    rewrite (calls_seq_single rt _ _ _ w (delete_property_map_single map)).
    destruct (rt _ (Delete_map map) w) as [[[] w']|]; [| done].
    f_equal. apply Hdel.
  - intros W rt w1 w2 map.
    destruct (Hdel map W rt w1) as [_ ->].
    destruct (Hdel map W rt w2) as [_ ->]. done.
Qed.

End NoValidation.

(** ** The declared interface *)

Section Declarations.
Import Decl.

(** C5.  The header declares seven entry points, with distinct names, whose
    names, parameters and results are those of the ABI list of the spec;
    every call that can leave the header is one of them at arguments of the
    declared types, and each can be called at any such arguments. *)
Theorem header_declares_documented_abi :
  abi_of <$> extern_decls = documented_abi ∧
  length extern_decls = 7%nat ∧
  NoDup (fd_name <$> extern_decls) ∧
  (∀ (R : Type) (e : goE R), ∃ x a, Any e = Any (invoke x a)) ∧
  (∀ x (a : args (fd_params (decl x))) (W : Type) (rt : runtime goE W) w,
     run rt (call (invoke x a)) w = rt _ (invoke x a) w).
Proof.
  split; [reflexivity |]. split; [reflexivity |]. split; [| split].
  - apply (bool_decide_unpack _). vm_compute. reflexivity.
  - intros R e. destruct e as [| h | h k v | h | | | p].
    + by exists E_new_property_map, tt.
    + by exists E_delete_map, (h, tt).
    + by exists E_add_map_entry, (h, (k, (v, tt))).
    + by exists E_install_prometheus_metrics_provider, (h, tt).
    + by exists E_shutdown_metrics_provider, tt.
    + by exists E_disable_metrics, tt.
    + by exists E_free_c_string, (p, tt).
  - intros. apply run_call.
Qed.

End Declarations.

(** ** The usage example and its keys *)

Section UsageFacts.
Import Header PassThrough Usage.

Lemma set_properties_calls {W : Type} (rt : runtime goE W) map kvs :
  ∀ w, is_Some (run rt (set_properties map kvs) w) →
    calls rt (set_properties map kvs) w =
      (λ kv, Any (Add_map_entry map kv.1 kv.2)) <$> kvs.
Proof.
  induction kvs as [| [key value] kvs IH]; intros w Hok; [done |].
  cbn [set_properties fmap list_fmap fst snd] in *.
  rewrite (calls_seq_single rt _ _ _ w (set_property_single map key value)).
  rewrite run_bind in Hok.
  destruct (single_call_forwards _ _ (set_property_single map key value)
              W rt w) as [Hrun _].
  rewrite Hrun in Hok.
  destruct (rt _ (Add_map_entry map key value) w) as [[[] w']|].
  - f_equal. by apply IH.
  - by destruct Hok.
Qed.

(** C7.  Run to completion on any runtime, the usage example sets exactly
    the keys "service.name", "service.version" and
    "prometheus.handler_path", in that order, before it calls install.  The
    header does not enforce them: a client that sets any list of keys and
    then installs issues just those [add_map_entry] calls followed by the
    install call, and the install wrapper is the install call alone. *)
Theorem example_keys_are_convention {W : Type} (rt : runtime exE W) (w : W)
    (lit : string → char_ptr) :
  is_Some (run rt (example_usage lit) w) →
  keys_before_install (calls rt (example_usage lit) w)
    = lit <$> suggested_keys ∧
  (∀ (W' : Type) (rt' : runtime goE W') (w' : W') map kvs,
     is_Some (run rt' (configure_and_install map kvs) w') →
     calls rt' (configure_and_install map kvs) w' =
       ((λ kv, Any (Add_map_entry map kv.1 kv.2)) <$> kvs)
       ++ [Any (Install_prometheus_metrics_provider map)]) ∧
  (∀ map,
     forwards_to (iceberg_metrics_install_prometheus_provider map)
                 (Install_prometheus_metrics_provider map)).
Proof.
  intros Hrun. split; [| split].
  - revert Hrun. unfold example_usage, mbind, prog_bind. cbn.
    destruct (rt _ (inlE New_property_map) w) as [[props w1]|];
      [| by intros [? ?]].
    destruct (rt _ (inlE (Add_map_entry props _ _)) w1) as [[[] w2]|];
      [| by intros [? ?]].
    destruct (rt _ (inlE (Add_map_entry props _ _)) w2) as [[[] w3]|];
      [| by intros [? ?]].
    destruct (rt _ (inlE (Add_map_entry props _ _)) w3) as [[[] w4]|];
      [| by intros [? ?]].
    reflexivity.
  - intros W' rt' w' map kvs Hok.
    unfold configure_and_install in *.
    rewrite run_bind in Hok. rewrite calls_bind.
    pose proof (set_properties_calls rt' map kvs w') as Hset.
    destruct (run rt' (set_properties map kvs) w') as [[[] w'']|];
      [| by destruct Hok].
    rewrite Hset by eauto. f_equal.
    apply (single_call_forwards _ _ (install_prometheus_provider_single map)).
  - intros map. apply single_call_forwards, install_prometheus_provider_single.
Qed.

(** The example on the lenient stub, with each literal placed at the
    address given by its length. *)
Lemma example_keys_are_convention_witness :
  is_Some (run (with_stdio Stub.lenient)
             (example_usage (λ s, Z.of_nat (String.length s))) tt) ∧
  keys_before_install
    (calls (with_stdio Stub.lenient)
       (example_usage (λ s, Z.of_nat (String.length s))) tt) = [12; 15; 23].
Proof.
  split.
  - vm_compute. eauto.
  - apply (example_keys_are_convention (with_stdio Stub.lenient) tt
             (λ s, Z.of_nat (String.length s))).
    vm_compute. eauto.
Defined.

End UsageFacts.

(** ** The Go side *)

Section GoModelFacts.
Import Header PassThrough GoModel.

Context {P : Type}.
Variable install_op : option (gmap string string) -> P -> option string * P.
Variable shutdown_op : P -> option string * P.
Variable disable_op : P -> P.
Variable free_null_faults : bool.

Abbreviation rt :=
  (go_runtime install_op shutdown_op disable_op free_null_faults).

Lemma fresh_block (w : world P) :
  fresh ({[NULL]} ∪ dom (cmem w)) ≠ NULL ∧
  cmem w !! fresh ({[NULL]} ∪ dom (cmem w)) = None.
Proof.
  pose proof (is_fresh ({[NULL]} ∪ dom (cmem w))) as Hfresh.
  split.
  - intros Heq. apply Hfresh. unfold char_ptr in *. rewrite Heq. set_solver.
  - apply not_elem_of_dom. set_solver.
Qed.

Lemma report_reports (res : option string) (p : P) (w : world P) :
  reports res (report res p w).1 w (report res p w).2.
Proof.
  destruct (fresh_block w) as [Hnz Hnew].
  destruct res as [msg|]; simpl; split.
  - split; [done | discriminate].
  - intros msg' [= <-]. repeat split; [done | done | | set_solver].
    apply lookup_insert_eq.
  - done.
  - discriminate.
Qed.

Lemma report_frame (res : option string) (p : P) (w : world P) :
  maps (report res p w).2 = maps w ∧ provider (report res p w).2 = p.
Proof. by destruct res. Qed.

Lemma report_owned (res : option string) (p : P) (w : world P) :
  (report res p w).1 = NULL ∨ (report res p w).1 ∈ owned (report res p w).2.
Proof. destruct res; simpl; [right; set_solver | by left]. Qed.

Lemma install_total (w : world P) handle :
  rt _ (Install_prometheus_metrics_provider handle) w =
  Some (report (install_op (maps w !! handle) (provider w)).1
               (install_op (maps w !! handle) (provider w)).2 w).
Proof.
  simpl. unfold go_install_prometheus_metrics_provider.
  by destruct (install_op (maps w !! handle) (provider w)).
Qed.

Lemma install_returned (w w' : world P) handle r :
  rt _ (Install_prometheus_metrics_provider handle) w = Some (r, w') →
  ∃ res p, (r, w') = report res p w.
Proof.
  rewrite install_total. intros [= Heq]. eauto.
Qed.

Lemma shutdown_total (w : world P) :
  rt _ Shutdown_metrics_provider w =
  Some (report (shutdown_op (provider w)).1 (shutdown_op (provider w)).2 w).
Proof.
  simpl. unfold go_shutdown_metrics_provider.
  by destruct (shutdown_op (provider w)).
Qed.

Lemma free_owned (w : world P) (str : char_ptr) :
  str ∈ owned w →
  rt _ (Free_c_string str) w =
  Some (tt, World (maps w) (provider w)
                  (delete str (cmem w)) (owned w ∖ {[str]})).
Proof.
  intros Hin. simpl. unfold go_free_c_string. by rewrite decide_True.
Qed.

Lemma new_then_delete (w : world P) :
  ∃ h w1,
    rt _ New_property_map w = Some (h, w1) ∧
    maps w !! h = None ∧
    rt _ (Delete_map h) w1 = Some (tt, w).
Proof.
  set (h := fresh (dom (maps w))).
  assert (Hh : maps w !! h = None)
    by (apply not_elem_of_dom, is_fresh).
  eexists h, _. split; [reflexivity |]. split; [exact Hh |].
  simpl. unfold go_delete_map. simpl.
  rewrite lookup_insert_eq. rewrite delete_insert_id by exact Hh.
  by destruct w.
Qed.

(** C2.  In the model of the Go side, every call of install, whatever the
    handle and the state, and every call of shutdown, whatever the state,
    returns, and returns through the pointer alone: null exactly when the
    operation on the provider slot succeeded, and on failure a non-null
    block that was not in use before, holds the error message and belongs
    to the caller.  The wrappers return the same. *)
Theorem error_string_convention (w : world P) :
  (∀ handle : uintptr_t,
     ∃ r w',
       rt _ (Install_prometheus_metrics_provider handle) w = Some (r, w') ∧
       run rt (iceberg_metrics_install_prometheus_provider handle) w
         = Some (r, w') ∧
       reports (install_op (maps w !! handle) (provider w)).1 r w w') ∧
  (∃ r w',
     rt _ Shutdown_metrics_provider w = Some (r, w') ∧
     run rt iceberg_metrics_shutdown_provider w = Some (r, w') ∧
     reports (shutdown_op (provider w)).1 r w w').
Proof.
  split.
  - intros handle.
    pose proof (install_total w handle) as Hrt.
    pose proof (report_reports (install_op (maps w !! handle) (provider w)).1
                  (install_op (maps w !! handle) (provider w)).2 w) as Hrep.
    destruct (report _ _ w) as [r w']. exists r, w'.
    split; [exact Hrt |]. split; [| exact Hrep].
    destruct (single_call_forwards _ _
      (install_prometheus_provider_single handle) _ rt w) as [-> _].
    exact Hrt.
  - pose proof (shutdown_total w) as Hrt.
    pose proof (report_reports (shutdown_op (provider w)).1
                  (shutdown_op (provider w)).2 w) as Hrep.
    destruct (report _ _ w) as [r w']. exists r, w'.
    split; [exact Hrt |]. split; [| exact Hrep].
    destruct (single_call_forwards _ _ shutdown_provider_single _ rt w)
      as [-> _].
    exact Hrt.
Qed.

(** C3.  In the model of the Go side, a pointer returned by install or by
    shutdown is null, or it is a block of the caller that
    [free_c_string], and so [iceberg_metrics_free_error], releases without
    a fault: afterwards the block is gone and nothing else changed. *)
Theorem returned_error_is_freeable (w w' : world P) (r : char_ptr) :
  (∃ handle,
     rt _ (Install_prometheus_metrics_provider handle) w = Some (r, w')) ∨
  rt _ Shutdown_metrics_provider w = Some (r, w') →
  r = NULL ∨
  (r ∈ owned w' ∧
   ∃ w'',
     rt _ (Free_c_string r) w' = Some (tt, w'') ∧
     run rt (iceberg_metrics_free_error r) w' = Some (tt, w'') ∧
     (r ∉ owned w'') ∧ cmem w'' !! r = None ∧
     maps w'' = maps w' ∧ provider w'' = provider w').
Proof.
  intros Hret.
  assert (Hrep : ∃ res p, (r, w') = report res p w).
  { destruct Hret as [[handle Hi] | Hs].
    - by apply install_returned in Hi.
    - rewrite shutdown_total in Hs. injection Hs as Hs.
      symmetry in Hs. eauto. }
  destruct Hrep as (res & p & Heq).
  destruct (report_owned res p w) as [Hnull | Hown];
    rewrite <- Heq in *; cbn [fst snd] in *; [by left | right].
  split; [exact Hown |].
  eexists. split; [by apply free_owned |].
  split.
  - destruct (single_call_forwards _ _ (free_error_single r) _ rt w')
      as [-> _].
    by apply free_owned.
  - simpl. split; [| split; [apply lookup_delete_eq | done]].
    rewrite elem_of_difference, elem_of_singleton. tauto.
Qed.

(** C4.  In the model of the Go side, installing on a handle that
    identifies a map returns, whatever the outcome, with every property map
    as it was before: the handle still identifies the same map, and it is
    [iceberg_metrics_delete_property_map], called by the owner afterwards,
    that destroys it. *)
Theorem install_leaves_map_to_caller (w : world P)
    (map : iceberg_metrics_property_map) (m : gmap string string) :
  maps w !! map = Some m →
  ∃ r w',
    run rt (iceberg_metrics_install_prometheus_provider map) w
      = Some (r, w') ∧
    maps w' = maps w ∧
    maps w' !! map = Some m ∧
    ∃ w'',
      run rt (iceberg_metrics_delete_property_map map) w' = Some (tt, w'') ∧
      maps w'' = delete map (maps w) ∧
      maps w'' !! map = None.
Proof.
  intros Hm.
  pose proof (install_total w map) as Hrt.
  destruct (report_frame (install_op (maps w !! map) (provider w)).1
              (install_op (maps w !! map) (provider w)).2 w) as [Hmaps _].
  destruct (report _ _ w) as [r w']. simpl in Hmaps.
  exists r, w'. split; [| split; [exact Hmaps | split]].
  - destruct (single_call_forwards _ _
      (install_prometheus_provider_single map) _ rt w) as [-> _].
    exact Hrt.
  - by rewrite Hmaps.
  - destruct (single_call_forwards _ _
      (delete_property_map_single map) _ rt w') as [-> _].
    simpl. unfold go_delete_map.
    unfold iceberg_metrics_property_map, uintptr_t in *. rewrite Hmaps, Hm.
    eexists. split; [reflexivity |]. simpl.
    split; [done | apply lookup_delete_eq].
Qed.

(** C6.  In the model of the Go side, creating a property map and deleting
    it, any number of times in a row and from any state, never faults, and
    leaves the state as it was; through the wrappers and through the entry
    points alike. *)
Theorem create_delete_never_faults (n : nat) (w : world P) :
  run rt (create_delete n) w = Some (tt, w) ∧
  run rt (create_delete_raw n) w = Some (tt, w).
Proof.
  destruct (new_then_delete w) as (h & w1 & Hnew & _ & Hdel).
  induction n as [| n [IH IHraw]]; [done |].
  split.
  - cbn [create_delete]. rewrite run_bind.
    destruct (single_call_forwards _ _ new_property_map_single _ rt w)
      as [-> _].
    unfold iceberg_metrics_property_map in *. rewrite Hnew, run_bind.
    destruct (single_call_forwards _ _ (delete_property_map_single h) _ rt w1)
      as [-> _].
    rewrite Hdel. exact IH.
  - cbn [create_delete_raw]. rewrite run_bind.
    unfold new_property_map, delete_map. rewrite run_call, Hnew, run_bind.
    rewrite run_call, Hdel. exact IHraw.
Qed.

End GoModelFacts.

(** ** The model at a concrete state *)

Section GoModelWitnesses.
Import Header GoModel.

(** The convention at [demo_world]: install on the live handle 7, install
    on handle 8, which identifies no map, and shutdown. *)
Lemma error_string_convention_witness :
  (∃ r w',
     demo_runtime _ (Install_prometheus_metrics_provider 7) demo_world
       = Some (r, w') ∧
     run demo_runtime (iceberg_metrics_install_prometheus_provider 7)
       demo_world = Some (r, w') ∧
     reports (demo_install (maps demo_world !! 7) (provider demo_world)).1
       r demo_world w') ∧
  (∃ r w',
     demo_runtime _ (Install_prometheus_metrics_provider 8) demo_world
       = Some (r, w') ∧
     run demo_runtime (iceberg_metrics_install_prometheus_provider 8)
       demo_world = Some (r, w') ∧
     reports (demo_install (maps demo_world !! 8) (provider demo_world)).1
       r demo_world w') ∧
  (∃ r w',
     demo_runtime _ Shutdown_metrics_provider demo_world = Some (r, w') ∧
     run demo_runtime iceberg_metrics_shutdown_provider demo_world
       = Some (r, w') ∧
     reports (demo_shutdown (provider demo_world)).1 r demo_world w').
Proof.
  destruct (error_string_convention demo_install demo_shutdown demo_disable
              false demo_world) as [Hinstall Hshutdown].
  split; [exact (Hinstall 7) |]. split; [exact (Hinstall 8) |].
  exact Hshutdown.
Defined.

Lemma returned_error_is_freeable_witness :
  ((∃ handle,
      demo_runtime _ (Install_prometheus_metrics_provider handle) demo_world
        = Some (1, demo_failed)) ∨
   demo_runtime _ Shutdown_metrics_provider demo_world
     = Some (1, demo_failed)) ∧
  (1 = NULL ∨
   (1 ∈ owned demo_failed ∧
    ∃ w'',
      demo_runtime _ (Free_c_string 1) demo_failed = Some (tt, w'') ∧
      run demo_runtime (iceberg_metrics_free_error 1) demo_failed
        = Some (tt, w'') ∧
      (1 ∉ owned w'') ∧ cmem w'' !! 1 = None ∧
      maps w'' = maps demo_failed ∧ provider w'' = provider demo_failed)).
Proof.
  assert (Hret :
    (∃ handle,
       demo_runtime _ (Install_prometheus_metrics_provider handle) demo_world
         = Some (1, demo_failed)) ∨
    demo_runtime _ Shutdown_metrics_provider demo_world
      = Some (1, demo_failed)).
  { left. exists 7. vm_compute. reflexivity. }
  split; [exact Hret |].
  exact (returned_error_is_freeable demo_install demo_shutdown demo_disable
           false demo_world demo_failed 1 Hret).
Defined.

Lemma install_leaves_map_to_caller_witness :
  maps demo_world !! 7 = Some ∅ ∧
  ∃ r w',
    run demo_runtime (iceberg_metrics_install_prometheus_provider 7)
      demo_world = Some (r, w') ∧
    maps w' = maps demo_world ∧
    maps w' !! 7 = Some ∅ ∧
    ∃ w'',
      run demo_runtime (iceberg_metrics_delete_property_map 7) w'
        = Some (tt, w'') ∧
      maps w'' = delete 7 (maps demo_world) ∧
      maps w'' !! 7 = None.
Proof.
  split; [reflexivity |].
  apply (install_leaves_map_to_caller demo_install demo_shutdown
           demo_disable false demo_world 7 ∅).
  reflexivity.
Defined.

End GoModelWitnesses.

(** ** Clients that go through the wrappers *)

Section ClientFacts.
Import Header PassThrough Clients.

Lemma wrapper_of_single {R : Type} (e : goE R) : single_call (wrapper_of e) e.
Proof.
  destruct e; simpl;
    auto using new_property_map_single, delete_property_map_single,
      set_property_single, install_prometheus_provider_single,
      shutdown_provider_single, disable_single, free_error_single.
Qed.

(** A client written with the [iceberg_metrics_*] wrappers cannot be told
    apart from the same client written with the entry points: on every
    runtime and from every state both return the same result in the same
    state, or both fault, after the same calls in the same order. *)
Theorem wrappers_transparent_for_clients {A : Type} (p : prog goE A)
    {W : Type} (rt : runtime goE W) (w : W) :
  run rt (via_wrappers p) w = run rt p w ∧
  calls rt (via_wrappers p) w = calls rt p w.
Proof.
  revert w. induction p as [a | R e k IH]; intros w; [done |].
  cbn [via_wrappers]. rewrite run_bind, calls_bind.
  destruct (single_call_forwards _ _ (wrapper_of_single e) W rt w)
    as [-> ->].
  simpl. destruct (rt R e w) as [[r w']|]; [| done].
  destruct (IH r w') as [-> ->]. done.
Qed.

End ClientFacts.

(** ** Runs of the usage example *)

Section ExampleRuns.
Import Header Usage Clients.

(** One step of a run of the example: the answer of the next call, or
    whether the pointer under test is null. *)
Ltac example_step rt :=
  match goal with
  | |- context [rt ?R ?e ?w] =>
      destruct (rt R e w) as [[? ?]|] eqn:?; cbn
  | |- context [decide (?p ≠ NULL)] =>
      destruct (decide (p ≠ NULL)); cbn
  end.

Ltac example_start :=
  unfold example_usage, example_calls, mbind, prog_bind; cbn.

Lemma no_use_after_delete_sound (l : list (anyE exE)) :
  no_use_after_delete l = true →
  ∀ l1 c l2, l = l1 ++ c :: l2 → is_Some (deleted c) →
    Forall (λ c', handle_of c' = None) l2.
Proof.
  induction l as [| c0 l IH]; intros Hok l1 c l2 Heq Hdel.
  - by destruct l1.
  - cbn [no_use_after_delete] in Hok.
    destruct l1 as [| c1 l1]; injection Heq as -> ->.
    + destruct Hdel as [h Hh]. rewrite Hh in Hok.
      apply Forall_forall. intros c' Hin.
      rewrite forallb_forall in Hok.
      eapply bool_decide_eq_true_1, Hok, list_elem_of_In, Hin.
    + destruct (deleted c1) eqn:Hc1.
      * rewrite forallb_forall in Hok.
        assert (Hc : handle_of c = None).
        { eapply bool_decide_eq_true_1, Hok, list_elem_of_In.
          apply elem_of_app. right. left. }
        destruct Hdel as [h Hh]. revert Hc Hh. clear.
        destruct c as [R [[] | f]]; simpl; congruence.
      * by apply (IH Hok l1 c l2).
Qed.

(** The format the example prints with is the 30 bytes of the C literal:
    the text, then one line feed. *)
Lemma failure_format_bytes :
  String.length failure_format = 30%nat ∧
  String.get 29 failure_format = Some (Ascii.ascii_of_nat 10) ∧
  String.substring 0 29 failure_format = "failed to install metrics: %s".
Proof. by vm_compute. Qed.

(** A run of the usage example that completes issues, on every runtime:
    [new_property_map]; three [add_map_entry] calls on the handle it
    returned, with the keys and values of the example; install on that
    handle; [delete_map] on that handle; and then, only when install
    returned a non-null pointer, [fprintf] of it followed by
    [free_c_string] of it. *)
Theorem example_run_calls {W : Type} (rt : runtime exE W) (w : W)
    (lit : string → char_ptr) :
  is_Some (run rt (example_usage lit) w) →
  ∃ props err,
    omap created (answers rt (example_usage lit) w) = [props] ∧
    omap installed (answers rt (example_usage lit) w) = [(props, err)] ∧
    calls rt (example_usage lit) w = example_calls lit props err.
Proof.
  example_start.
  do 6 (example_step rt; [| by intros [? ?]]).
  repeat match goal with u : unit |- _ => destruct u end.
  example_step rt.
  - do 2 (example_step rt; [| by intros [? ?]]).
    intros _. eexists _, _. repeat split. cbn. by rewrite decide_True.
  - intros _. eexists _, _. repeat split. cbn. by rewrite decide_False.
Qed.

Lemma example_handles {W : Type} (rt : runtime exE W) (w : W)
    (lit : string → char_ptr) :
  (∀ h, h ∈ omap handle_of (calls rt (example_usage lit) w) →
        h ∈ omap created (answers rt (example_usage lit) w)) ∧
  no_use_after_delete (calls rt (example_usage lit) w) = true ∧
  (length (omap deleted (calls rt (example_usage lit) w)) ≤ 1)%nat ∧
  (is_Some (run rt (example_usage lit) w) →
   omap deleted (calls rt (example_usage lit) w)
     = omap created (answers rt (example_usage lit) w) ∧
   length (omap created (answers rt (example_usage lit) w)) = 1%nat).
Proof.
  example_start. repeat example_step rt;
    (split; [| split; [| split]];
     [ intros h; rewrite ?elem_of_cons, ?elem_of_nil; tauto
     | reflexivity
     | lia
     | first [ by intros [? ?] | done ] ]).
Qed.

(** The usage example keeps to the lifetime of its handle on every
    runtime, whether the run completes or faults on the way: every handle
    it passes is one that [new_property_map] returned in this run, it
    calls [delete_map] at most once, and no call after [delete_map] takes
    a handle.  A run that completes deletes exactly the one handle it
    created. *)
Theorem example_handle_lifetime {W : Type} (rt : runtime exE W) (w : W)
    (lit : string → char_ptr) :
  (∀ h, h ∈ omap handle_of (calls rt (example_usage lit) w) →
        h ∈ omap created (answers rt (example_usage lit) w)) ∧
  (∀ l1 c l2, calls rt (example_usage lit) w = l1 ++ c :: l2 →
     is_Some (deleted c) → Forall (λ c', handle_of c' = None) l2) ∧
  (length (omap deleted (calls rt (example_usage lit) w)) ≤ 1)%nat ∧
  (is_Some (run rt (example_usage lit) w) →
   omap deleted (calls rt (example_usage lit) w)
     = omap created (answers rt (example_usage lit) w) ∧
   length (omap created (answers rt (example_usage lit) w)) = 1%nat).
Proof.
  destruct (example_handles rt w lit) as (Hused & Hafter & Honce & Hdone).
  split; [exact Hused |]. split; [| by split].
  by apply no_use_after_delete_sound.
Qed.

(** The usage example keeps to the ownership of the error string on every
    runtime, whether the run completes or faults on the way: whatever it
    prints or passes to [free_c_string] is a non-null pointer that install
    returned in this run.  A run that completes prints and then releases
    the pointer, once each and in that order, when install returned a
    non-null pointer, and prints and releases nothing when it returned
    null. *)
Theorem example_error_lifetime {W : Type} (rt : runtime exE W) (w : W)
    (lit : string → char_ptr) :
  (∀ u, u ∈ omap err_use_of (calls rt (example_usage lit) w) →
     ∃ props err,
       (props, err) ∈ omap installed (answers rt (example_usage lit) w) ∧
       err ≠ NULL ∧
       (u = Printed failure_format err ∨
        u = Released err)) ∧
  (is_Some (run rt (example_usage lit) w) →
   ∃ props err,
     omap installed (answers rt (example_usage lit) w) = [(props, err)] ∧
     omap err_use_of (calls rt (example_usage lit) w) =
       if decide (err ≠ NULL)
       then [Printed failure_format err; Released err]
       else []).
Proof.
  example_start. repeat example_step rt;
    (split;
     [ intros use; rewrite ?elem_of_cons, ?elem_of_nil; intros Hu;
       repeat destruct Hu as [Hu | Hu]; try done; subst use;
       eexists _, _; (split; [apply list_elem_of_here |]); split; auto
     | first [ by intros [? ?] | intros _; eexists _, _; split; [done |] ] ]).
  - by rewrite decide_True.
  - by rewrite decide_False.
Qed.

(** The usage example never calls [free_c_string] with the null pointer:
    two runtimes that agree on every call other than [free_c_string(NULL)]
    run it alike, with the same result and state, or the same fault, after
    the same calls. *)
Theorem example_never_frees_null {W : Type} (rt1 rt2 : runtime exE W) (w : W)
    (lit : string → char_ptr) :
  (∀ (R : Type) (e : exE R) (w' : W),
     frees_null e = false → rt1 R e w' = rt2 R e w') →
  run rt1 (example_usage lit) w = run rt2 (example_usage lit) w ∧
  calls rt1 (example_usage lit) w = calls rt2 (example_usage lit) w.
Proof.
  intros Hagree. example_start.
  repeat first
    [ match goal with
      | |- context [rt1 ?R ?e ?w'] =>
          rewrite (Hagree R e w')
            by first [ reflexivity | by apply bool_decide_eq_false ]
      end
    | example_step rt2 ];
    done.
Qed.

(** The example on a stub whose install fails with the pointer 64, each
    literal placed at the address given by its length. *)
Lemma example_run_calls_witness :
  is_Some (run (with_stdio failing_install)
             (example_usage (λ s, Z.of_nat (String.length s))) tt) ∧
  ∃ props err,
    omap created (answers (with_stdio failing_install)
      (example_usage (λ s, Z.of_nat (String.length s))) tt) = [props] ∧
    omap installed (answers (with_stdio failing_install)
      (example_usage (λ s, Z.of_nat (String.length s))) tt)
      = [(props, err)] ∧
    calls (with_stdio failing_install)
      (example_usage (λ s, Z.of_nat (String.length s))) tt
      = example_calls (λ s, Z.of_nat (String.length s)) props err.
Proof.
  split.
  - vm_compute. eauto.
  - apply (example_run_calls (with_stdio failing_install) tt
             (λ s, Z.of_nat (String.length s))).
    vm_compute. eauto.
Defined.

(** The lenient stub and the stub that faults on [free_c_string(NULL)]
    run the example alike. *)
Lemma example_never_frees_null_witness :
  (∀ (R : Type) (e : exE R) (w' : unit),
     frees_null e = false →
     with_stdio Stub.lenient R e w' = with_stdio Stub.null_rejecting R e w') ∧
  run (with_stdio Stub.lenient)
    (example_usage (λ s, Z.of_nat (String.length s))) tt
  = run (with_stdio Stub.null_rejecting)
      (example_usage (λ s, Z.of_nat (String.length s))) tt ∧
  calls (with_stdio Stub.lenient)
    (example_usage (λ s, Z.of_nat (String.length s))) tt
  = calls (with_stdio Stub.null_rejecting)
      (example_usage (λ s, Z.of_nat (String.length s))) tt.
Proof.
  assert (Hagree : ∀ (R : Type) (e : exE R) (w' : unit),
    frees_null e = false →
    with_stdio Stub.lenient R e w' = with_stdio Stub.null_rejecting R e w').
  { intros R [g | f] w' Hnot; [| reflexivity].
    destruct g; try reflexivity.
    simpl in *. apply bool_decide_eq_false in Hnot.
    by rewrite decide_False. }
  split; [exact Hagree |].
  exact (example_never_frees_null (with_stdio Stub.lenient)
           (with_stdio Stub.null_rejecting) tt
           (λ s, Z.of_nat (String.length s)) Hagree).
Defined.

End ExampleRuns.

(** ** The wrappers against the entry points they call *)

Section WrapperDeclarations.
Import Decl WrapperDecl.

(** Every entry point has exactly one wrapper, defined in the order of the
    declarations; a wrapper takes the parameters of its entry point and
    returns its result type, the handle being spelled with the typedef;
    wrapper names start with "iceberg_metrics_" and clash neither with one
    another nor with the names of the entry points. *)
Theorem wrappers_mirror_entry_points :
  wd_calls <$> wrapper_defs = entries ∧
  Forall (λ d,
    resolve <$> wd_params d = fd_params (decl (wd_calls d)) ∧
    resolve (wd_ret d) = fd_ret (decl (wd_calls d))) wrapper_defs ∧
  Forall (λ d, String.prefix "iceberg_metrics_" (wd_name d) = true)
    wrapper_defs ∧
  NoDup ((wd_name <$> wrapper_defs) ++ (fd_name <$> extern_decls)).
Proof.
  split; [reflexivity |]. split; [| split].
  - repeat (constructor; [by split |]). constructor.
  - repeat (constructor; [reflexivity |]). constructor.
  - apply (bool_decide_unpack _). vm_compute. reflexivity.
Qed.

End WrapperDeclarations.
